(** * pypath.inputs.kegg_api: the KEGG identifier and relation engine

    A shallow embedding of [pypath/inputs/kegg_api.py].  Python values are
    given the types of the source's annotations; a Python exception is a
    [Raise] in the [result] type, and the module's effects (the requests
    handed to the transport, the class attribute [_ConversionTable._table])
    are threaded through a small state and error monad.

    The raw client [_kegg_general] is an [async def]: a call binds the
    arguments and yields a coroutine object whose body has not run.  A
    coroutine object carries its body as a computation; a caller that
    iterates or subscripts the object raises [TypeError], and only
    [asyncio.run] and [await] run a body. *)

From stdpp Require Import gmap strings list fin_maps.
From Stdlib Require Import Ascii String.

Local Open Scope string_scope.
Local Open Scope list_scope.

(** ** Python exceptions and results *)

Inductive exn : Type :=
| TypeError
| NameError
| AttributeError
| KeyError
| IndexError
| ValueError.

Inductive result (A : Type) : Type :=
| Ok (a : A)
| Raise (e : exn).

Arguments Ok {A} a.
Arguments Raise {A} e.

Definition is_ok {A : Type} (r : result A) : bool :=
  match r with Ok _ => true | Raise _ => false end.

Definition rbind {A B : Type} (r : result A) (k : A -> result B) : result B :=
  match r with
  | Ok a => k a
  | Raise e => Raise e
  end.

(** ** String primitives of the Python runtime used by the module *)

Module Py.

(** [s.split(sep)] for a one-character separator: never the empty list. *)
Fixpoint split (sep : ascii) (s : string) : list string :=
  match s with
  | EmptyString => [EmptyString]
  | String c s' =>
      if Ascii.eqb c sep then EmptyString :: split sep s'
      else match split sep s' with
           | [] => [String c EmptyString]
           | p :: ps => String c p :: ps
           end
  end.

(** [sep.join(parts)] *)
Fixpoint join (sep : string) (parts : list string) : string :=
  match parts with
  | [] => EmptyString
  | [p] => p
  | p :: ps => p ++ sep ++ join sep ps
  end.

(** [l[i]] for a non-negative literal index. *)
Definition index {A : Type} (l : list A) (i : nat) : result A :=
  match nth_error l i with
  | Some x => Ok x
  | None => Raise IndexError
  end.

(** [l[-1]] *)
Definition index_last {A : Type} (l : list A) : result A :=
  match l with
  | [] => Raise IndexError
  | x :: l' => Ok (List.last l' x)
  end.

(** [s[0]] on a string *)
Definition first_char (s : string) : result ascii :=
  match s with
  | EmptyString => Raise IndexError
  | String c _ => Ok c
  end.

Definition is_upper (c : ascii) : bool :=
  (65 <=? nat_of_ascii c)%nat && (nat_of_ascii c <=? 90)%nat.

Definition is_lower (c : ascii) : bool :=
  (97 <=? nat_of_ascii c)%nat && (nat_of_ascii c <=? 122)%nat.

Definition is_digit (c : ascii) : bool :=
  (48 <=? nat_of_ascii c)%nat && (nat_of_ascii c <=? 57)%nat.

(** [c.lower()] and [c.upper()] on one ASCII character *)
Definition lower_char (c : ascii) : ascii :=
  if is_upper c then ascii_of_nat (nat_of_ascii c + 32) else c.

Definition upper_char (c : ascii) : ascii :=
  if is_lower c then ascii_of_nat (nat_of_ascii c - 32) else c.

Fixpoint lower (s : string) : string :=
  match s with
  | EmptyString => EmptyString
  | String c s' => String (lower_char c) (lower s')
  end.

(** [s.capitalize()] *)
Definition capitalize (s : string) : string :=
  match s with
  | EmptyString => EmptyString
  | String c s' => String (upper_char c) (lower s')
  end.

(** [s.lstrip(' ')], [s.rstrip(' ')] and [s.strip(' ')] *)
Fixpoint lstrip (s : string) : string :=
  match s with
  | String c s' => if Ascii.eqb c " "%char then lstrip s' else s
  | EmptyString => EmptyString
  end.

Fixpoint rstrip (s : string) : string :=
  match s with
  | EmptyString => EmptyString
  | String c s' =>
      match rstrip s' with
      | EmptyString => if Ascii.eqb c " "%char then EmptyString
                       else String c EmptyString
      | t => String c t
      end
  end.

Definition strip (s : string) : string := rstrip (lstrip s).

(** [s.rsplit(sep, maxsplit = 1)]: cut at the last separator only. *)
Definition rsplit1 (sep : ascii) (s : string) : list string :=
  match split sep s with
  | [] => [s]
  | [p] => [p]
  | p :: ps =>
      [join (String sep EmptyString) (removelast (p :: ps)); List.last ps p]
  end.

(** [re.compile(r'\d+').search(s)]: the leftmost maximal run of digits,
    [None] when [s] has no digit.  [take_digits] is the greedy [\d+] at
    the current position. *)
Fixpoint take_digits (s : string) : string :=
  match s with
  | String c s' => if is_digit c then String c (take_digits s') else EmptyString
  | EmptyString => EmptyString
  end.

Fixpoint search_digits (s : string) : option string :=
  match s with
  | EmptyString => None
  | String c s' => if is_digit c then Some (take_digits s) else search_digits s'
  end.

(** [x in l] for a list of strings *)
Definition contains (x : string) (l : list string) : bool :=
  existsb (String.eqb x) l.

End Py.

(** ** The world the module acts on

    [requests] is the log of urls handed to the transport [curl.Curl], oldest
    first.  [shared_table] is the dictionary bound to the class attribute
    [_ConversionTable._table]: no subclass rebinds it, so every
    organism-scoped table reaches this one object. *)

Record World : Type := mkWorld {
  requests : list string;
  shared_table : gmap string (gset string);
}.

Definition M (A : Type) : Type := World -> result A * World.

Definition ret {A : Type} (a : A) : M A := fun w => (Ok a, w).

Definition raise {A : Type} (e : exn) : M A := fun w => (Raise e, w).

Definition bind {A B : Type} (m : M A) (k : A -> M B) : M B :=
  fun w =>
    match m w with
    | (Ok a, w') => k a w'
    | (Raise e, w') => (Raise e, w')
    end.

Definition lift {A : Type} (r : result A) : M A := fun w => (r, w).

Notation "'let*' x ':=' m 'in' k" := (bind m (fun x => k))
  (at level 10, x name, m at level 100, k at level 200).

Definition empty_world : World := mkWorld [] ∅.

(** Modelled from the spec: [common.to_list] belongs to
    [pypath.share.common], which is not among the sources.  The optional
    scope argument of a fetch is passed only when present, so [None]
    becomes the empty list and a string a one-element list; a value that is
    a list already is used as it is at its call sites. *)
Definition to_list (var : option string) : list string :=
  match var with
  | None => []
  | Some s => [s]
  end.

Definition tab : ascii := "009"%char.

Definition nonempty (s : string) : bool :=
  match s with EmptyString => false | String _ _ => true end.

(** Line 256: [[line.split('\t') for line in lines if line]] *)
Definition rows_of_lines (lines : list string) : list (list string) :=
  map (Py.split tab) (List.filter nonempty lines).

(** Line 254: [getattr(c, 'result', []) or []] over the transport's answer,
    [None] standing for a response object whose [result] is missing, [None]
    or otherwise falsy because the download failed. *)
Definition lines_of_result (res : option (list string)) : list string :=
  match res with
  | Some lines => lines
  | None => []
  end.

(** ['/'.join(parts)] where a part may be [None]: [str.join] raises
    [TypeError] on a non-string item. *)
Fixpoint all_str (parts : list (option string)) : result (list string) :=
  match parts with
  | [] => Ok []
  | None :: _ => Raise TypeError
  | Some s :: ps => rbind (all_str ps) (fun l => Ok (s :: l))
  end.

(** Sequential evaluation of a comprehension whose element may raise or
    fetch: elements are produced left to right. *)
Fixpoint mapM {A B : Type} (f : A -> M B) (l : list A) : M (list B) :=
  match l with
  | [] => ret []
  | x :: l' =>
      let* y := f x in
      let* ys := mapM f l' in
      ret (y :: ys)
  end.

(** A coroutine object: the body of a call of an [async def], not run. *)
Record coroutine (A : Type) : Type := mkCoroutine { co_run : M A }.

Arguments mkCoroutine {A} co_run.
Arguments co_run {A} c.

(** [iter(c)], as a [for] loop, a comprehension or [itertools.chain] does
    it: a coroutine object is not iterable. *)
Definition iter_coroutine {A : Type} (c : coroutine A) : result A :=
  Raise TypeError.

(** What [_kegg_ddi] hands back: rows, or coroutine objects left as they
    are. *)
Inductive ddi_entry : Type :=
| Row (fields : list string)
| Pending (c : coroutine (list (list string))).

(** [entry[i]] in the aggregation loop: a coroutine object cannot be
    subscripted. *)
Definition entry_fields (entry : ddi_entry) : result (list string) :=
  match entry with
  | Row fields => Ok fields
  | Pending _ => Raise TypeError
  end.

Fixpoint map_result {A B : Type} (f : A -> result B) (l : list A)
  : result (list B) :=
  match l with
  | [] => Ok []
  | x :: l' =>
      rbind (f x) (fun y => rbind (map_result f l') (fun ys => Ok (y :: ys)))
  end.

(** Values that reach a keyword argument of [_kegg_ddi]. *)
Inductive pyval : Type :=
| PyBool (b : bool)
| PyNone
| PyList (l : list string).

Definition truthy (v : pyval) : bool :=
  match v with
  | PyBool b => b
  | PyNone => false
  | PyList [] => false
  | PyList (_ :: _) => true
  end.

(** ** The raw client and the thin wrappers over it *)

Section RawClient.

(** The transport collaborator, [pypath.share.curl] and
    [pypath.resources.urls], is not part of the module: [_url operation]
    stands for [_url % operation] and [Curl url] for the [result] of
    [curl.Curl(url = url, silent = True, large = False)]. *)
Variable _url : string -> string.
Variable Curl : string -> option (list string).

Definition log_request (url : string) (w : World) : World :=
  mkWorld (requests w ++ [url]) (shared_table w).

(** [curl.Curl(url = url, silent = True, large = False)]: the request
    is made and the object's [result] is what the transport answers. *)
Definition curl (url : string) : M (option (list string)) :=
  fun w => (Ok (Curl url), log_request url w).

(** Line 246: [[_url % operation] + arguments].  [arguments] is the tuple
    of the star parameter, and a list cannot be concatenated with a
    tuple. *)
Definition list_add_tuple (l : list string) (t : list (option string))
  : result (list (option string)) :=
  Raise TypeError.

(** Line 249: the name [_async] is bound nowhere, the parameter being
    [async_]. *)
Definition _async : result bool := Raise NameError.

(** Lines 246-256, the body of [_kegg_general]. *)
Definition _kegg_general_body (operation : string)
    (arguments : list (option string)) (async_ : bool)
  : M (list (list string)) :=
  let* parts := lift (list_add_tuple [_url operation] arguments) in
  let* parts := lift (all_str parts) in
  let url := Py.join "/" parts in
  let* flag := lift _async in
  let* c := (if (flag : bool) then curl url else curl url) in
  let lines := lines_of_result c in
  ret (rows_of_lines lines).

(** Lines 240-256: the call yields the coroutine object. *)
Definition _kegg_general (operation : string)
    (arguments : list (option string)) (async_ : bool)
  : coroutine (list (list string)) :=
  mkCoroutine (_kegg_general_body operation arguments async_).

(** Lines 259-269: an [async def] whose body returns the coroutine object
    of [_kegg_general] without awaiting it. *)
Definition _kegg_general_async (operation : string)
    (arguments : list (option string))
  : coroutine (coroutine (list (list string))) :=
  mkCoroutine (ret (_kegg_general operation arguments false)).

(** [_kegg_general( *args )]: the first positional item binds [operation],
    which has no default; the binding is done by the call itself. *)
Definition _kegg_general_star (args : list string)
  : M (coroutine (list (list string))) :=
  match args with
  | [] => raise TypeError
  | operation :: arguments =>
      ret (_kegg_general operation (map Some arguments) false)
  end.

(** Lines 278-282.  A conditional expression binds weaker than [+], so the
    expression reads
    [(['list', database] + to_list(option)) if database == 'brite' else
     (([] + to_list(organism)) if database == 'pathway' else [])]. *)
Definition _kegg_list_args (database : string) (option organism : option string)
  : list string :=
  if String.eqb database "brite" then ["list"; database] ++ to_list option
  else if String.eqb database "pathway" then [] ++ to_list organism
  else [].

(** Lines 272-284. *)
Definition _kegg_list (database : string) (option organism : option string)
  : M (coroutine (list (list string))) :=
  _kegg_general_star (_kegg_list_args database option organism).

(** [_kegg_list( *args )]: one to three positional items. *)
Definition _kegg_list_star (args : list string)
  : M (coroutine (list (list string))) :=
  match args with
  | [database] => _kegg_list database None None
  | [database; option] => _kegg_list database (Some option) None
  | [database; option; organism] =>
      _kegg_list database (Some option) (Some organism)
  | _ => raise TypeError
  end.

(** Lines 299-300: [x.split(':')[1] if flag else x] *)
Definition conv_side (flag : bool) (x : string) : result string :=
  if flag then Py.index (Py.split ":"%char x) 1 else Ok x.

(** Lines 297-301, one turn of the loop: the row unpacks into exactly two
    fields, then [conversion_table[source].add(target)] on a
    [defaultdict(set)]. *)
Definition conv_step (source_split target_split : bool)
    (conversion_table : gmap string (gset string)) (row : list string)
  : result (gmap string (gset string)) :=
  match row with
  | [source; target] =>
      rbind (conv_side source_split source) (fun source =>
      rbind (conv_side target_split target) (fun target =>
      Ok (<[source := default ∅ (conversion_table !! source) ∪ {[target]}]>
            conversion_table)))
  | _ => Raise ValueError
  end.

Fixpoint conv_loop (source_split target_split : bool)
    (conversion_table : gmap string (gset string)) (rows : list (list string))
  : result (gmap string (gset string)) :=
  match rows with
  | [] => Ok conversion_table
  | row :: rows' =>
      rbind (conv_step source_split target_split conversion_table row)
            (fun t => conv_loop source_split target_split t rows')
  end.

(** Lines 287-303: the loop of line 297 iterates what [_kegg_general]
    returned. *)
Definition _kegg_conv (source_db target_db : string)
    (source_split target_split : bool) : M (gmap string (gset string)) :=
  let result := _kegg_general "conv" [Some target_db; Some source_db] false in
  let* rows := lift (iter_coroutine result) in
  lift (conv_loop source_split target_split ∅ rows).

(** Lines 306-308. *)
Definition _kegg_link (source_db target_db : option string)
  : coroutine (list (list string)) :=
  _kegg_general "link" [target_db; source_db] false.

(** Lines 324-329: [drug_ids] is a string here, so [to_list] wraps it;
    [itertools.chain] iterates each thing the generator yields. *)
Definition _kegg_ddi_sync (drug_ids : string) : M (list ddi_entry) :=
  let results := map (fun drug_id => _kegg_general "ddi" [Some drug_id] false)
                     (to_list (Some drug_ids)) in
  let* chunks := lift (map_result iter_coroutine results) in
  ret (map Row (List.concat chunks)).

(** Modelled from the spec: [common.to_list] on a value that is neither
    [None] nor a list nor a string.  The value is kept as the one element
    of a list, as the single row a fetch returned would be. *)
Definition to_list_object (response : coroutine (list (list string)))
  : list ddi_entry :=
  [Pending response].

(** Lines 332-348.  Awaiting a response runs the body of
    [_kegg_general_async], whose value is a coroutine object; the responses
    are taken in submission order. *)
Definition _kegg_ddi_async (drug_ids : string) : coroutine (list ddi_entry) :=
  mkCoroutine
    (let* responses :=
       mapM co_run
            (map (fun drug_id => _kegg_general_async "ddi" [Some drug_id])
                 (to_list (Some drug_ids))) in
     ret (List.concat (map to_list_object responses))).

(** Lines 311-321: the identifiers are joined with [+] whatever the mode;
    [asyncio.run] runs the body of [_kegg_ddi_async]. *)
Definition _kegg_ddi (drug_ids : list string) (async_ : bool)
  : M (list ddi_entry) :=
  let drug_ids := Py.join "+" drug_ids in
  if async_ then co_run (_kegg_ddi_async drug_ids) else _kegg_ddi_sync drug_ids.

(** A call [_kegg_ddi(drug_ids, **kwargs)]: the signature is
    [(drug_ids, async_ = False)], any other keyword is a [TypeError]. *)
Definition _kegg_ddi_kw (drug_ids : list string) (kwargs : list (string * pyval))
  : M (list ddi_entry) :=
  if forallb (fun kw => String.eqb (fst kw) "async_") kwargs then
    _kegg_ddi drug_ids
      (match kwargs with (_, v) :: _ => truthy v | [] => false end)
  else raise TypeError.

(** ** Entity caches: [_KeggDatabase] and its subclasses *)

Inductive kind : Type :=
| Organism
| Gene
| Pathway
| Disease
| Drug
| Compound.

(** A cached value: a name, or for [_Organism] the pair
    [(entry[0], entry[2])]. *)
Inductive value : Type :=
| Name (s : string)
| OrgEntry (code name : string).

Definition _query_args (k : kind) : option string :=
  match k with
  | Organism => Some "organism"
  | Gene => None
  | Pathway => Some "pathway"
  | Disease => Some "disease"
  | Drug => Some "drug"
  | Compound => Some "compound"
  end.

(** Lines 479-481, 492-494, 513-519 and 525-527. *)
Definition proc_key (k : kind) (entry : list string) : result string :=
  match k with
  | Organism => Py.index entry 1
  | Gene => Py.index entry 0
  | Pathway =>
      rbind (Py.index entry 0) (fun e0 =>
      match Py.search_digits e0 with
      | Some digits => Ok ("map" ++ digits)%string
      | None => Raise AttributeError
      end)
  | Disease | Drug | Compound =>
      rbind (Py.index entry 0) (fun e0 => Py.index (Py.split ":"%char e0) 1)
  end.

(** Lines 474-476, 497-499, 508-510 and 530-532. *)
Definition proc_value (k : kind) (entry : list string) : result value :=
  match k with
  | Organism =>
      rbind (Py.index entry 0) (fun e0 =>
      rbind (Py.index entry 2) (fun e2 => Ok (OrgEntry e0 e2)))
  | Gene =>
      rbind (Py.index_last entry) (fun e =>
      rbind (Py.index_last (Py.rsplit1 ";"%char e)) (fun seg =>
      Ok (Name (Py.strip seg))))
  | Pathway | Disease | Drug | Compound =>
      rbind (Py.index entry 1) (fun e1 => Ok (Name e1))
  end.

(** Lines 447-450: the dictionary comprehension, key before value, a later
    row replacing an earlier one with the same key. *)
Fixpoint build_data (k : kind) (data : gmap string value)
    (entries : list (list string)) : result (gmap string value) :=
  match entries with
  | [] => Ok data
  | entry :: entries' =>
      rbind (proc_key k entry) (fun key =>
      rbind (proc_value k entry) (fun val =>
      build_data k (<[key := val]> data) entries'))
  end.

(** Lines 442-450. *)
Definition load (k : kind) (args : list string) : M (gmap string value) :=
  let* entries := _kegg_list_star (to_list (_query_args k) ++ args) in
  let* rows := lift (iter_coroutine entries) in
  lift (build_data k ∅ rows).

(** Lines 424-427 and 487-489: [_Gene] takes exactly one argument. *)
Definition __init__ (k : kind) (args : list string) : M (gmap string value) :=
  match k, args with
  | Gene, [organism] => load Gene [organism]
  | Gene, _ => raise TypeError
  | _, _ => load k args
  end.

(** [_KeggDatabase] is an [ABC] that marks [__init__], [proc_key],
    [proc_value] and [load] abstract; a class is instantiable once every
    one of them is overridden below it. *)
Definition abstract_methods : list string :=
  ["__init__"; "proc_key"; "proc_value"; "load"].

Definition overridden (k : kind) : list string :=
  match k with
  | Gene => ["__init__"; "proc_key"; "proc_value"]
  | Organism | Pathway | Disease | Drug | Compound =>
      ["proc_value"; "proc_key"]
  end.

Definition still_abstract (k : kind) : list string :=
  List.filter (fun m => negb (Py.contains m (overridden k))) abstract_methods.

(** The call [cls( *args )] on one of the entity classes. *)
Definition instantiate (k : kind) (args : list string)
  : M (gmap string value) :=
  match still_abstract k with
  | [] => __init__ k args
  | _ :: _ => raise TypeError
  end.

(** Lines 453-455: [self._data.get(index, default)] *)
Definition get (data : gmap string value) (index : string)
    (default : option value) : option value :=
  match data !! index with
  | Some v => Some v
  | None => default
  end.

(** Neither [handle] nor [get_data] is defined by [_KeggDatabase] or by a
    subclass (the accessor is the property [data]); the attribute lookup
    raises. *)
Definition handle (data : gmap string value) (entry : string) : result string :=
  Raise AttributeError.

Definition get_data_method (data : gmap string value)
  : result (gmap string value) :=
  Raise AttributeError.

(** ** Conversion caches: [_ConversionTable] and its subclasses *)

Inductive conv_kind : Type :=
| KeggToNcbi
| NcbiToKegg
| KeggToUniprot
| UniprotToKegg
| KeggToChebi
| ChebiToKegg.

(** An instance either has its own [_table] attribute (the two ChEBI
    tables assign it) or reaches the class attribute. *)
Record ConvInstance : Type := mkConv {
  conv_class : conv_kind;
  own_table : option (gmap string (gset string));
}.

(** [self._table.update(table)] on the class attribute. *)
Definition update_shared (table : gmap string (gset string)) : M unit :=
  fun w => (Ok tt, mkWorld (requests w) (table ∪ shared_table w)).

(** Lines 581-620. *)
Definition download_table (ck : conv_kind) (organism : option string)
  : M ConvInstance :=
  match ck, organism with
  | KeggToNcbi, Some organism =>
      let* table := _kegg_conv organism "ncbi-geneid" false true in
      let* _u := update_shared table in ret (mkConv ck None)
  | NcbiToKegg, Some organism =>
      let* table := _kegg_conv "ncbi-geneid" organism true false in
      let* _u := update_shared table in ret (mkConv ck None)
  | KeggToUniprot, Some organism =>
      let* table := _kegg_conv organism "uniprot" false true in
      let* _u := update_shared table in ret (mkConv ck None)
  | UniprotToKegg, Some organism =>
      let* table := _kegg_conv "uniprot" organism true false in
      let* _u := update_shared table in ret (mkConv ck None)
  | KeggToChebi, None =>
      let* table := _kegg_conv "drug" "chebi" true true in
      ret (mkConv ck (Some table))
  | ChebiToKegg, None =>
      let* table := _kegg_conv "chebi" "drug" true true in
      ret (mkConv ck (Some table))
  | _, _ => raise TypeError
  end.

(** Lines 554-555 and 576-578: the constructors.  [_OrgTable] downloads
    only when an organism is given; the ChEBI tables take no argument. *)
Definition new_table (ck : conv_kind) (organism : option string)
  : M ConvInstance :=
  match ck with
  | KeggToChebi | ChebiToKegg => download_table ck organism
  | _ =>
      match organism with
      | Some _ => download_table ck organism
      | None => ret (mkConv ck None)
      end
  end.

(** Lines 570-571. *)
Definition get_table (t : ConvInstance) : M (gmap string (gset string)) :=
  fun w => (Ok (default (shared_table w) (own_table t)), w).

(** Lines 563-567: [None] on a [KeyError]. *)
Definition conv_get (t : ConvInstance) (index : string)
  : M (option (gset string)) :=
  let* table := get_table t in
  ret (table !! index).

(** ** The relation resolver, lines 351-415 *)

Inductive xrefs : Type :=
| Xrefs (ids : option (gset string))
| EmptyTuple.

Record KeggEntry : Type := mkKeggEntry {
  ke_id : string;
  ke_name : option value;
  ke_type : string;
  ncbi_gene_ids : xrefs;
  uniprot_ids : xrefs;
  chebi_ids : xrefs;
}.

(** The dictionary [data] of one [_kegg_relations] call.  [db] stores under
    an entity kind and [ids] under a namespace, so the two sorts of entry
    never share a key and are kept apart by type. *)
Record Data : Type := mkData {
  dbs : gmap string (gmap string value);
  tables : gmap string ConvInstance;
}.

(** The names [locals()] holds inside [get_data] when line 379 runs: its
    parameters, [cls], and the two free variables it refers to. *)
Definition get_data_locals : list string :=
  ["name"; "cls_prefix"; "cls"; "data"; "l_organism"].

(** Line 379: [locals()[cls]( *l_organism )].  A name found there is bound
    to a string, a dictionary or a list, none of them callable. *)
Definition locals_call {C : Type} (cls : string) (l_organism : list string)
  : M C :=
  if Py.contains cls get_data_locals then raise TypeError else raise KeyError.

(** Lines 374-381. *)
Definition get_data {C : Type} (l_organism : list string)
    (slot : gmap string C) (name cls_prefix : string)
  : M (C * gmap string C) :=
  match slot !! name with
  | Some c => ret (c, slot)
  | None =>
      let cls := ("_" ++ cls_prefix ++ Py.capitalize name)%string in
      let* c := locals_call cls l_organism in
      ret (c, <[name := c]> slot)
  end.

(** Lines 383-385. *)
Definition db (l_organism : list string) (data : Data) (name : string)
  : M (gmap string value * Data) :=
  let* r := get_data l_organism (dbs data) name EmptyString in
  ret (fst r, mkData (snd r) (tables data)).

(** Lines 388-390. *)
Definition ids (l_organism : list string) (data : Data) (name : string)
  : M (ConvInstance * Data) :=
  let* r := get_data l_organism (tables data) name "KeggTo" in
  ret (fst r, mkData (dbs data) (snd r)).

(** Lines 397-399: [ids(ns).get(id_) if type_ == wanted else ()] *)
Definition xrefs_of (l_organism : list string) (data : Data)
    (ns id_ type_ wanted : string) : M (xrefs * Data) :=
  if String.eqb type_ wanted then
    let* r := ids l_organism data ns in
    let* found := conv_get (fst r) id_ in
    ret (Xrefs found, snd r)
  else ret (EmptyTuple, data).

(** Lines 393-408. *)
Definition process (l_organism : list string) (data : Data)
    (entry type_ : string) : M (KeggEntry * Data) :=
  let* r := db l_organism data type_ in
  let* id_ := lift (handle (fst r) entry) in
  let* r := db l_organism (snd r) type_ in
  let name := get (fst r) id_ None in
  let* ncbi := xrefs_of l_organism (snd r) "ncbi" id_ type_ "gene" in
  let* uniprot := xrefs_of l_organism (snd ncbi) "uniprot" id_ type_ "gene" in
  let* chebi := xrefs_of l_organism (snd uniprot) "chebi" id_ type_ "drug" in
  ret (mkKeggEntry id_ name type_ (fst ncbi) (fst uniprot) (fst chebi),
       snd chebi).

(** A call [process( *args )]: both [entry] and [type_] are required. *)
Definition process_star (l_organism : list string) (data : Data)
    (args : list string) : M (KeggEntry * Data) :=
  match args with
  | [entry; type_] => process l_organism data entry type_
  | _ => raise TypeError
  end.

(** Line 413: [[(process(e[0]), process(e[1])) for e in entries]] *)
Fixpoint resolve_entries (l_organism : list string) (data : Data)
    (entries : list (list string)) : M (list (KeggEntry * KeggEntry)) :=
  match entries with
  | [] => ret []
  | e :: entries' =>
      let* e0 := lift (Py.index e 0) in
      let* src := process_star l_organism data [e0] in
      let* e1 := lift (Py.index e 1) in
      let* tgt := process_star l_organism (snd src) [e1] in
      let* rest := resolve_entries l_organism (snd tgt) entries' in
      ret ((fst src, fst tgt) :: rest)
  end.

(** Line 411: [organism if db == 'gene' else db] *)
Definition link_arg (organism : option string) (db : string) : option string :=
  if String.eqb db "gene" then organism else Some db.

Definition _kegg_relations (source_db target_db : string)
    (organism : option string) : M (list (KeggEntry * KeggEntry)) :=
  let l_organism := to_list organism in
  let data := mkData ∅ ∅ in
  let entries := _kegg_link (link_arg organism source_db)
                            (link_arg organism target_db) in
  let* rows := lift (iter_coroutine entries) in
  resolve_entries l_organism data rows.

(** Lines 50-107, the public resolution functions. *)
Definition gene_to_pathway (organism : option string) :=
  _kegg_relations "gene" "pathway" organism.
Definition pathway_to_gene (organism : option string) :=
  _kegg_relations "pathway" "gene" organism.
Definition gene_to_drug (organism : option string) :=
  _kegg_relations "gene" "drug" organism.
Definition drug_to_gene (organism : option string) :=
  _kegg_relations "drug" "gene" organism.
Definition gene_to_disease (organism : option string) :=
  _kegg_relations "gene" "disease" organism.
Definition disease_to_gene (organism : option string) :=
  _kegg_relations "disease" "gene" organism.
Definition pathway_to_drug := _kegg_relations "pathway" "drug" None.
Definition drug_to_pathway := _kegg_relations "drug" "pathway" None.
Definition pathway_to_disease := _kegg_relations "pathway" "disease" None.
Definition disease_to_pathway := _kegg_relations "disease" "pathway" None.
Definition disease_to_drug := _kegg_relations "disease" "drug" None.
Definition drug_to_disease := _kegg_relations "drug" "disease" None.

(** ** The drug interaction aggregator, lines 110-207 *)

Record Interaction : Type := mkInteraction {
  i_type : option string;
  i_id : string;
  i_name : option value;
  contraindication : bool;
  precaution : bool;
}.

Record DrugToDrugInteraction : Type := mkDrugToDrugInteraction {
  d_type : option string;
  d_name : option value;
  d_interactions : list Interaction;
}.

(** One side of a row, the inner dictionary of lines 169-173. *)
Record Partner : Type := mkPartner {
  p_type : option string;
  p_id : string;
  p_name : option value;
}.

(** Line 151: [entry_types.get(c, None)] *)
Definition entry_types (c : ascii) : option string :=
  if Ascii.eqb c "d"%char then Some "drug"
  else if Ascii.eqb c "c"%char then Some "compound"
  else None.

(** Line 152: [{'drug': _Drug(), 'compound': _Compound()}] *)
Record EntryDbs : Type := mkEntryDbs {
  drug_db : gmap string value;
  compound_db : gmap string value;
}.

(** Line 159: [join and drugs] *)
Definition drugs_val (drugs : option (list string)) : pyval :=
  match drugs with
  | None => PyNone
  | Some l => PyList l
  end.

Definition join_flag (join : bool) (drugs : option (list string)) : pyval :=
  if join then drugs_val drugs else PyBool false.

(** Line 160: [not drugs or asynchronous] *)
Definition asynchronous_flag (drugs : option (list string))
    (asynchronous : bool) : bool :=
  negb (truthy (drugs_val drugs)) || asynchronous.

(** Line 161: [drugs or entry_dbs['drug'].get_data().keys()] *)
Definition drugs_or_all (drugs : option (list string)) (entry_dbs : EntryDbs)
  : result (list string) :=
  match drugs with
  | Some (d :: l) => Ok (d :: l)
  | _ =>
      rbind (get_data_method (drug_db entry_dbs)) (fun data =>
      Ok (map fst (map_to_list data)))
  end.

(** Line 172: [entry_dbs[entry_type].get(entry_id, None)].  Neither
    [entry_type] nor [entry_id] is bound in the function or in the module. *)
Definition partner_name (entry_dbs : EntryDbs) : result (option value) :=
  Raise NameError.

(** Lines 169-173 for the field [i] of a row. *)
Definition partner (entry_dbs : EntryDbs) (entry : list string) (i : nat)
  : result Partner :=
  rbind (Py.index entry i) (fun e =>
  rbind (Py.first_char e) (fun c =>
  let type := entry_types (Py.lower_char c) in
  rbind (Py.index_last (Py.split ":"%char e)) (fun id =>
  rbind (partner_name entry_dbs) (fun name =>
  Ok (mkPartner type id name))))).

(** Lines 178-180. *)
Definition labels_of (label_field : string) : list string :=
  Py.split ","%char label_field.

Definition is_contraindication (labels : list string) : bool :=
  Py.contains "CI" labels.

Definition is_precaution (labels : list string) : bool :=
  Py.contains "P" labels.

(** The value [interactions[key]] while the loop runs.  Its
    ['interactions'] item is a [defaultdict(list)], which has no
    [append]: line 191 raises. *)
Record Profile : Type := mkProfile {
  pf_type : option string;
  pf_name : option value;
}.

Definition append_interaction (interaction : Interaction) : result unit :=
  Raise AttributeError.

(** Lines 166-193, one turn of the loop. *)
Definition ddi_step (entry_dbs : EntryDbs) (interactions : gmap string Profile)
    (entry : list string) : result (gmap string Profile) :=
  rbind (partner entry_dbs entry 0) (fun source =>
  rbind (partner entry_dbs entry 1) (fun target =>
  rbind (Py.index entry 2) (fun e2 =>
  let labels := labels_of e2 in
  let interaction :=
    mkInteraction (p_type target) (p_id target) (p_name target)
                  (is_contraindication labels) (is_precaution labels) in
  let disease_id := p_id source in
  rbind (append_interaction interaction) (fun _ =>
  Ok (<[disease_id := mkProfile (p_type source) (p_name source)]>
        interactions))))).

Fixpoint ddi_loop (entry_dbs : EntryDbs) (interactions : gmap string Profile)
    (entries : list (list string)) : result (gmap string Profile) :=
  match entries with
  | [] => Ok interactions
  | entry :: entries' =>
      rbind (ddi_step entry_dbs interactions entry)
            (fun t => ddi_loop entry_dbs t entries')
  end.

(** Line 164 on: the loop over what [_kegg_ddi] returned. *)
Fixpoint ddi_entries_loop (entry_dbs : EntryDbs)
    (interactions : gmap string Profile) (entries : list ddi_entry)
  : result (gmap string Profile) :=
  match entries with
  | [] => Ok interactions
  | entry :: entries' =>
      rbind (entry_fields entry) (fun fields =>
      rbind (ddi_step entry_dbs interactions fields)
            (fun t => ddi_entries_loop entry_dbs t entries'))
  end.

(** Lines 195-205: [tuple(value['interactions'])] lists the keys of the
    inner [defaultdict], which no row has filled. *)
Definition finish (pf : Profile) : DrugToDrugInteraction :=
  mkDrugToDrugInteraction (pf_type pf) (pf_name pf) [].

Definition drug_to_drug (drugs : option (list string))
    (join asynchronous : bool) : M (gmap string DrugToDrugInteraction) :=
  let* drug := instantiate Drug [] in
  let* compound := instantiate Compound [] in
  let entry_dbs := mkEntryDbs drug compound in
  let join := join_flag join drugs in
  let asynchronous := asynchronous_flag drugs asynchronous in
  let* drugs := lift (drugs_or_all drugs entry_dbs) in
  let* entries := _kegg_ddi_kw drugs
                    [("join", join); ("asynchronous", PyBool asynchronous)] in
  let* interactions := lift (ddi_entries_loop entry_dbs ∅ entries) in
  ret (finish <$> interactions).

(** ** The public conversion helpers, lines 210-237 *)

Definition kegg_gene_id_to_ncbi_gene_id (organism : string) :=
  _kegg_conv organism "ncbi-geneid" false true.

Definition ncbi_gene_id_to_kegg_gene_id (organism : string) :=
  _kegg_conv "ncbi-geneid" organism true false.

Definition kegg_gene_id_to_uniprot_id (organism : string) :=
  _kegg_conv organism "uniprot" false true.

Definition uniprot_id_to_kegg_gene_id (organism : string) :=
  _kegg_conv "uniprot" organism true false.

Definition kegg_drug_id_to_chebi_id := _kegg_conv "drug" "chebi" true true.

Definition chebi_id_to_kegg_drug_id := _kegg_conv "chebi" "drug" true true.

End RawClient.

(** ** Concrete transports and inputs used to run the model *)

Definition kegg_url (operation : string) : string :=
  ("https://rest.kegg.jp/" ++ operation)%string.



Definition tsv (a b : string) : string :=
  (a ++ String tab EmptyString ++ b)%string.

Definition tsv3 (a b c : string) : string :=
  (a ++ String tab EmptyString ++ b ++ String tab EmptyString ++ c)%string.

(** The gene and pathway link relation of one organism, answered in both
    directions with the same pair. *)
Definition curl_link (url : string) : option (list string) :=
  if String.eqb url "https://rest.kegg.jp/link/pathway/hsa"
  then Some [tsv "hsa:10" "path:hsa00232"]
  else if String.eqb url "https://rest.kegg.jp/link/hsa/pathway"
  then Some [tsv "path:hsa00232" "hsa:10"]
  else if String.eqb url "https://rest.kegg.jp/link/disease/pathway"
  then Some [tsv "path:map05010" "ds:H00056"]
  else None.

(** Conversion responses: two UniProt accessions for one gene. *)
Definition curl_conv (url : string) : option (list string) :=
  if String.eqb url "https://rest.kegg.jp/conv/uniprot/hsa"
  then Some [tsv "hsa:10" "up:P11245"; tsv "hsa:10" "up:A4Z6T7";
             tsv "hsa:100" "up:P00813"]
  else if String.eqb url "https://rest.kegg.jp/conv/ncbi-geneid/hsa"
  then Some [tsv "hsa:10" "ncbi-geneid:10"]
  else if String.eqb url "https://rest.kegg.jp/conv/ncbi-geneid/mmu"
  then Some [tsv "mmu:11287" "ncbi-geneid:11287"]
  else None.

(** The two interaction rows of the aggregation example. *)
Definition ddi_rows : list (list string) :=
  [["dr:D001"; "dr:D002"; "CI,P"]; ["dr:D001"; "cpd:C003"; EmptyString]].

Definition curl_ddi (url : string) : option (list string) :=
  Some [tsv3 "dr:D001" "dr:D002" "CI,P"; tsv3 "dr:D001" "cpd:C003" EmptyString].

(** [id] and [t] are related by some row of a conversion response: the row
    has two fields that, after the optional prefix stripping, are [id] and
    [t]. *)
Definition contributes (source_split target_split : bool)
    (rows : list (list string)) (id t : string) : Prop :=
  ∃ source target,
    [source; target] ∈ rows
    ∧ conv_side source_split source = Ok id
    ∧ conv_side target_split target = Ok t.

(** [t] is stored under [id] in a conversion table. *)
Definition stored (table : gmap string (gset string)) (id t : string) : Prop :=
  ∃ S, table !! id = Some S ∧ t ∈ S.

Definition all_digits (s : string) : Prop :=
  Forall (fun c => Py.is_digit c = true) (list_ascii_of_string s).

Definition no_digit (s : string) : Prop :=
  Forall (fun c => Py.is_digit c = false) (list_ascii_of_string s).

Definition starts_with_digit (s : string) : bool :=
  match s with
  | String c _ => Py.is_digit c
  | EmptyString => false
  end.

(** Every set a conversion table stores has at least one element. *)
Definition inhabited_sets (table : gmap string (gset string)) : Prop :=
  ∀ id S, table !! id = Some S → S ≠ ∅.

(** [c] occurs in [s]. *)
Fixpoint has_char (c : ascii) (s : string) : bool :=
  match s with
  | EmptyString => false
  | String x s' => Ascii.eqb x c || has_char c s'
  end.

Definition starts_with_space (s : string) : bool :=
  match s with
  | String c _ => Ascii.eqb c " "%char
  | EmptyString => false
  end.

Fixpoint ends_with_space (s : string) : bool :=
  match s with
  | EmptyString => false
  | String c EmptyString => Ascii.eqb c " "%char
  | String _ s' => ends_with_space s'
  end.

(** A conversion row the loop of [_kegg_conv] accepts: two fields, with a
    colon in each field that is to be split. *)
Definition conv_row_ok (source_split target_split : bool)
    (row : list string) : bool :=
  match row with
  | [source; target] =>
      (negb source_split || has_char ":"%char source)
      && (negb target_split || has_char ":"%char target)
  | _ => false
  end.

(** The organism-scoped table classes, each with the public helper that
    issues the same conversion request. *)
Definition organism_tables (_url : string → string)
    (Curl : string → option (list string))
  : list (conv_kind * (string → M (gmap string (gset string)))) :=
  [(KeggToNcbi, kegg_gene_id_to_ncbi_gene_id _url Curl);
   (NcbiToKegg, ncbi_gene_id_to_kegg_gene_id _url Curl);
   (KeggToUniprot, kegg_gene_id_to_uniprot_id _url Curl);
   (UniprotToKegg, uniprot_id_to_kegg_gene_id _url Curl)].

(** The two ChEBI table classes, each with its public helper. *)
Definition chebi_tables (_url : string → string)
    (Curl : string → option (list string))
  : list (conv_kind * M (gmap string (gset string))) :=
  [(KeggToChebi, kegg_drug_id_to_chebi_id _url Curl);
   (ChebiToKegg, chebi_id_to_kegg_drug_id _url Curl)].

(** * Properties *)

(** ** The string primitives on the module's inputs *)

Example split_tab :
  Py.split "009"%char (String "a" (String "009" (String "b" EmptyString)))
  = ["a"; "b"].
Proof. reflexivity. Qed.

Example split_empty : Py.split ":"%char EmptyString = [EmptyString].
Proof. reflexivity. Qed.

Example rsplit1_gene :
  Py.rsplit1 ";"%char "CDS; A1BG; alpha-1-B glycoprotein"
  = ["CDS; A1BG"; " alpha-1-B glycoprotein"].
Proof. reflexivity. Qed.

Example search_digits_pathway : Py.search_digits "path:hsa04110" = Some "04110".
Proof. reflexivity. Qed.




(** ** Pathway key normalisation *)



(** ** Conversion tables *)

Section ConvLoop.

Variables source_split target_split : bool.

Lemma contributes_nil (id t : string) : ¬ contributes source_split target_split [] id t.
Proof.
  intros (source & target & Hin & _). by apply elem_of_nil in Hin.
Qed.

Lemma contributes_cons (row : list string) (rows : list (list string))
    (id t : string) :
  contributes source_split target_split (row :: rows) id t ↔ contributes source_split target_split [row] id t ∨ contributes source_split target_split rows id t.
Proof.
  unfold contributes. split.
  - intros (source & target & Hin & Hs & Ht).
    apply elem_of_cons in Hin as [Heq | Hin].
    + left. exists source, target. rewrite Heq. split; [apply list_elem_of_here | done].
    + right. exists source, target. done.
  - intros [(source & target & Hin & Hs & Ht) | (source & target & Hin & Hs & Ht)].
    + exists source, target. apply list_elem_of_singleton in Hin as ->.
      split; [apply list_elem_of_here | done].
    + exists source, target. split; [by apply list_elem_of_further | done].
Qed.

Lemma conv_step_stored (table table' : gmap string (gset string))
    (row : list string) (id t : string) :
  conv_step source_split target_split table row = Ok table' →
  stored table' id t ↔ stored table id t ∨ contributes source_split target_split [row] id t.
Proof.
  unfold conv_step.
  destruct row as [| source [| target [| x row]]]; try discriminate.
  destruct (conv_side source_split source) as [s |] eqn:Hs; [| discriminate].
  destruct (conv_side target_split target) as [u |] eqn:Hu; [| discriminate].
  simpl. intros [= <-]. unfold stored, contributes. split.
  - intros (S & Hlook & Hin).
    destruct (decide (s = id)) as [-> | Hne].
    + rewrite lookup_insert_eq in Hlook. injection Hlook as <-.
      apply elem_of_union in Hin as [Hin | Hin].
      * left. destruct (table !! id) as [S0 |] eqn:Hid; simpl in Hin.
        -- exists S0. done.
        -- by apply not_elem_of_empty in Hin.
      * right. apply elem_of_singleton in Hin as ->.
        exists source, target. split; [apply list_elem_of_here | done].
    + rewrite lookup_insert_ne in Hlook by done. left. exists S. done.
  - intros [(S & Hlook & Hin) | (source' & target' & Hrow & Hs' & Hu')].
    + destruct (decide (s = id)) as [-> | Hne].
      * eexists. rewrite lookup_insert_eq. split; [done |].
        rewrite Hlook. simpl. apply elem_of_union. by left.
      * exists S. by rewrite lookup_insert_ne.
    + apply list_elem_of_singleton in Hrow. injection Hrow as <- <-.
      rewrite Hs in Hs'. rewrite Hu in Hu'.
      injection Hs' as ->. injection Hu' as ->.
      eexists. rewrite lookup_insert_eq. split; [done |].
      apply elem_of_union. right. by apply elem_of_singleton.
Qed.

Lemma conv_loop_stored (rows : list (list string))
    (table table' : gmap string (gset string)) (id t : string) :
  conv_loop source_split target_split table rows = Ok table' →
  stored table' id t ↔ stored table id t ∨ contributes source_split target_split rows id t.
Proof.
  revert table. induction rows as [| row rows IH]; intros table; simpl.
  - intros [= <-]. split; [by left |].
    intros [H | H]; [done | by apply contributes_nil in H].
  -     destruct (conv_step source_split target_split table row) as [table1 |] eqn:H1;
      [| discriminate].
    simpl. intros Hloop. rewrite (IH _ Hloop).
    rewrite (conv_step_stored _ _ _ _ _ H1), (contributes_cons row rows). tauto.
Qed.

Lemma conv_step_inhabited (table table' : gmap string (gset string))
    (row : list string) :
  inhabited_sets table → conv_step source_split target_split table row = Ok table' → inhabited_sets table'.
Proof.
  unfold conv_step. intros Hinh.
  destruct row as [| source [| target [| x row]]]; try discriminate.
  destruct (conv_side source_split source) as [s |]; [| discriminate].
  destruct (conv_side target_split target) as [u |]; [| discriminate].
  simpl. intros [= <-] id S.
  destruct (decide (s = id)) as [-> | Hne].
  - rewrite lookup_insert_eq. intros [= <-]. set_solver.
  - rewrite lookup_insert_ne by done. apply Hinh.
Qed.

Lemma conv_loop_inhabited (rows : list (list string))
    (table table' : gmap string (gset string)) :
  inhabited_sets table → conv_loop source_split target_split table rows = Ok table' → inhabited_sets table'.
Proof.
  revert table. induction rows as [| row rows IH]; intros table Hinh; simpl.
  - by intros [= <-].
  -     destruct (conv_step source_split target_split table row) as [table1 |] eqn:H1;
      [| discriminate].
    simpl. apply IH. by eapply conv_step_inhabited.
Qed.

Lemma conv_loop_lookup (rows : list (list string))
    (table : gmap string (gset string)) (id : string) :
  conv_loop source_split target_split ∅ rows = Ok table →
  match table !! id with
  | Some targets =>
      targets ≠ ∅
      ∧ ∀ t, t ∈ targets ↔ contributes source_split target_split rows id t
  | None => ∀ t, ¬ contributes source_split target_split rows id t
  end.
Proof.
  intros Hloop.
  assert (Hst : ∀ t, stored table id t ↔ contributes source_split target_split rows id t).
  { intros t. rewrite (conv_loop_stored _ _ _ _ _ Hloop). split; [| by right].
    intros [(S & Hl & _) | H]; [by rewrite lookup_empty in Hl | done]. }
  destruct (table !! id) as [S |] eqn:Hid.
  - split.
    + eapply conv_loop_inhabited; [| exact Hloop | exact Hid].
      intros i S0 Hl. by rewrite lookup_empty in Hl.
    + intros t. rewrite <- Hst. unfold stored. split.
      * intros Hin. exists S. done.
      * intros (S' & Hl & Hin). rewrite Hid in Hl. by injection Hl as <-.
  - intros t Hrel. apply Hst in Hrel as (S & Hl & _). by rewrite Hid in Hl.
Qed.

End ConvLoop.

(** C7, as amended: for every conversion cache object, [get] returns what
    the table the object reads holds under the identifier, [None] when the
    identifier is absent.  A table built by the accumulation loop of
    [_kegg_conv] stores under an identifier the set of all target
    references of the rows whose source reference, after the optional
    prefix stripping, is that identifier, every one of them kept; so for a
    cache that reads such a table, be it its own or the shared one, [get]
    returns that set, and [None] for an identifier no row mentions. *)
Theorem conversion_get_accumulates (source_split target_split : bool)
    (rows : list (list string)) (table : gmap string (gset string))
    (t : ConvInstance) (w : World) (id : string) :
  conv_loop source_split target_split ∅ rows = Ok table →
  default (shared_table w) (own_table t) = table →
  conv_get t id w = (Ok (table !! id), w)
  ∧ match table !! id with
    | Some targets =>
        targets ≠ ∅
        ∧ ∀ x, x ∈ targets ↔ contributes source_split target_split rows id x
    | None => ∀ x, ¬ contributes source_split target_split rows id x
    end.
Proof.
  intros Hloop Hread. split.
  - unfold conv_get, get_table, bind, ret. by rewrite Hread.
  - by apply conv_loop_lookup.
Qed.

Lemma conversion_get_accumulates_witness :
  conv_get (mkConv KeggToUniprot None) "hsa:10"
    (mkWorld [] (<["hsa:10" := {["P11245"; "A4Z6T7"]}]>
                   {["hsa:100" := {["P00813"]}]}))
  = (Ok ((<["hsa:10" := {["P11245"; "A4Z6T7"]}]>
            ({["hsa:100" := {["P00813"]}]} : gmap string (gset string)))
           !! "hsa:10"),
     mkWorld [] (<["hsa:10" := {["P11245"; "A4Z6T7"]}]>
                   {["hsa:100" := {["P00813"]}]})).
Proof.
  refine (proj1 (conversion_get_accumulates false true
                   [["hsa:10"; "up:P11245"]; ["hsa:10"; "up:A4Z6T7"];
                    ["hsa:100"; "up:P00813"]]
                   (<["hsa:10" := {["P11245"; "A4Z6T7"]}]>
                      {["hsa:100" := {["P00813"]}]})
                   (mkConv KeggToUniprot None)
                   (mkWorld [] (<["hsa:10" := {["P11245"; "A4Z6T7"]}]>
                                  {["hsa:100" := {["P00813"]}]}))
                   "hsa:10" _ _)).
  - vm_compute. reflexivity.
  - reflexivity.
Defined.

(** C7, the claim as stated fails: a gene table object built without an
    organism reads the shared table, which holds nothing yet, and [get]
    returns [None] for the absent identifier, not the empty set. *)
Lemma conversion_get_absent_is_none :
  fst ((let* t := new_table kegg_url curl_conv KeggToNcbi None in
        conv_get t "hsa:10") empty_world)
  = Ok None
  ∧ fst ((let* t := new_table kegg_url curl_conv KeggToNcbi None in
          conv_get t "hsa:10") empty_world)
    ≠ Ok (Some ∅).
Proof.
  split; [vm_compute; reflexivity | vm_compute; discriminate].
Qed.

(** ** What every fetch path does *)

Lemma kegg_conv_raises (_url : string → string)
    (Curl : string → option (list string)) (source_db target_db : string)
    (source_split target_split : bool) (w : World) :
  _kegg_conv _url Curl source_db target_db source_split target_split w
  = (Raise TypeError, w).
Proof. reflexivity. Qed.


Lemma kegg_general_star_then_iterate (_url : string → string)
    (Curl : string → option (list string)) (args : list string) (w : World) :
  (let* entries := _kegg_general_star _url Curl args in
   lift (iter_coroutine entries)) w
  = (Raise TypeError, w).
Proof. destruct args; reflexivity. Qed.

Lemma kegg_list_then_iterate (_url : string → string)
    (Curl : string → option (list string)) (database : string)
    (option organism : Datatypes.option string) (w : World) :
  (let* entries := _kegg_list _url Curl database option organism in
   lift (iter_coroutine entries)) w
  = (Raise TypeError, w).
Proof. apply kegg_general_star_then_iterate. Qed.

Lemma load_raises (_url : string → string)
    (Curl : string → option (list string)) (k : kind) (args : list string)
    (w : World) :
  load _url Curl k args w = (Raise TypeError, w).
Proof.
  unfold load.
  assert (Hiter : (let* entries := _kegg_list_star _url Curl
                                     (to_list (_query_args k) ++ args) in
                   lift (iter_coroutine entries)) w
                  = (Raise TypeError, w)).
  { unfold _kegg_list_star.
    destruct (to_list (_query_args k) ++ args) as [| a [| b [| c [| d l]]]];
      try reflexivity; apply kegg_list_then_iterate. }
  unfold bind in *.
  destruct (_kegg_list_star _url Curl (to_list (_query_args k) ++ args) w)
    as [[entries | e] w1].
  - unfold lift, iter_coroutine in *. by injection Hiter as ->.
  - by injection Hiter as -> ->.
Qed.

Lemma kegg_relations_raises (_url : string → string)
    (Curl : string → option (list string)) (source_db target_db : string)
    (organism : option string) (w : World) :
  _kegg_relations _url Curl source_db target_db organism w
  = (Raise TypeError, w).
Proof. reflexivity. Qed.

(** ** Transport failures *)





(** ** Builds keep no memo *)




(** ** Entity cache construction *)

Lemma instantiate_raises (_url : string → string)
    (Curl : string → option (list string)) (k : kind) (args : list string)
    (w : World) :
  instantiate _url Curl k args w = (Raise TypeError, w).
Proof. destruct k; reflexivity. Qed.

(** Every entry of the mapping [load] builds comes from a row, through
    the key and value rules of the kind. *)
Lemma build_data_lookup (k : kind) (entries : list (list string))
    (data0 data : gmap string value) (key : string) (v : value) :
  build_data k data0 entries = Ok data →
  data !! key = Some v →
  data0 !! key = Some v
  ∨ ∃ entry, entry ∈ entries
             ∧ proc_key k entry = Ok key ∧ proc_value k entry = Ok v.
Proof.
  revert data0. induction entries as [| entry entries IH]; intros data0; simpl.
  - intros [= <-] Hl. by left.
  - destruct (proc_key k entry) as [key' |] eqn:Hk; [| discriminate].
    destruct (proc_value k entry) as [v' |] eqn:Hv; [| discriminate].
    simpl. intros Hb Hl.
    destruct (IH _ Hb Hl) as [H0 | (e & Hin & Hke & Hve)].
    + destruct (decide (key' = key)) as [-> | Hne].
      * rewrite lookup_insert_eq in H0. injection H0 as ->.
        right. exists entry. split; [apply list_elem_of_here | done].
      * rewrite lookup_insert_ne in H0 by done. by left.
    + right. exists e. split; [by apply list_elem_of_further | done].
Qed.

(** C6: constructing an entity cache issues no fetch at all.  The argument
    list computed by [_kegg_list] for a kind other than [brite] and
    [pathway] is empty, so [load] raises [TypeError] before any request for
    every kind and its usual scope, and the classes cannot be instantiated
    in the first place, [load] (and for most [__init__]) being left
    abstract. *)
Theorem entity_cache_construction_fetches_nothing (_url : string → string)
    (Curl : string → option (list string)) (w : World) :
  _kegg_list_args "drug" None None = []
  ∧ _kegg_list_args "pathway" None None = []
  ∧ Forall (λ k, load _url Curl k [] w = (Raise TypeError, w))
           [Organism; Pathway; Disease; Drug; Compound]
  ∧ load _url Curl Gene ["hsa"] w = (Raise TypeError, w)
  ∧ ∀ k args, instantiate _url Curl k args w = (Raise TypeError, w).
Proof.
  split; [reflexivity |]. split; [reflexivity |].
  split; [repeat constructor |].
  split; [reflexivity |].
  intros k args. apply instantiate_raises.
Qed.

(** ** The relation resolver *)

Lemma process_star_one (l_organism : list string) (data : Data)
    (entry : string) (w : World) :
  process_star l_organism data [entry] w = (Raise TypeError, w).
Proof. reflexivity. Qed.

(** What [_KeggDatabase.get] does for an identifier the cache lacks. *)
Lemma get_absent (data : gmap string value) (index : string) :
  data !! index = None → get data index None = None.
Proof. intros H. unfold get. by rewrite H. Qed.

(** C1: no row of a link response yields a pair of records.  On the first
    row [process] is called with one argument and raises [TypeError], so
    the resolver raises for every non-empty response; called with both
    arguments it would raise [KeyError] on the class lookup of
    [get_data]. *)
Theorem relation_rows_yield_no_record :
  (∀ l_organism data e0 rest entries w,
     resolve_entries l_organism data ((e0 :: rest) :: entries) w
     = (Raise TypeError, w))
  ∧ (∀ l_organism entry type_ w,
       process l_organism (mkData ∅ ∅) entry type_ w = (Raise KeyError, w))
  ∧ fst (_kegg_relations kegg_url curl_link "pathway" "disease" None empty_world)
    = Raise TypeError.
Proof.
  split; [| split].
  - reflexivity.
  - intros l_organism entry type_ w.
    unfold process, db, get_data, bind. simpl. rewrite lookup_empty.
    unfold locals_call. simpl. reflexivity.
  - vm_compute. reflexivity.
Qed.

(** C8: neither direction of the gene and pathway relation yields a pair
    sequence.  Both resolutions raise [TypeError] before any request, for
    every transport and organism, on iterating what [_kegg_link] returned;
    and a row of the relation, in either orientation, would make the
    resolution raise on the call of [process]. *)
Theorem gene_pathway_round_trip_raises :
  (∀ _url Curl organism w,
     gene_to_pathway _url Curl organism w = (Raise TypeError, w)
     ∧ pathway_to_gene _url Curl organism w = (Raise TypeError, w))
  ∧ resolve_entries ["hsa"] (mkData ∅ ∅) [["hsa:10"; "path:hsa00232"]]
      empty_world
    = (Raise TypeError, empty_world)
  ∧ resolve_entries ["hsa"] (mkData ∅ ∅) [["path:hsa00232"; "hsa:10"]]
      empty_world
    = (Raise TypeError, empty_world).
Proof.
  split; [| split; reflexivity].
  intros _url Curl organism w. unfold gene_to_pathway, pathway_to_gene.
  split; apply kegg_relations_raises.
Qed.

(** ** The drug interaction aggregator *)

Lemma drug_to_drug_raises (_url : string → string)
    (Curl : string → option (list string)) (drugs : option (list string))
    (join asynchronous : bool) (w : World) :
  drug_to_drug _url Curl drugs join asynchronous w = (Raise TypeError, w).
Proof. reflexivity. Qed.

(** C4: the fetch dispatch does not follow the mode rule.  [_kegg_ddi]
    accepts neither [join] nor [asynchronous], so the call made by
    [drug_to_drug] raises [TypeError]; [_kegg_ddi] itself joins the
    identifiers whatever the mode and then makes no request at all, its
    synchronous branch raising [TypeError] and its asynchronous branch
    leaving the state as it was; and [drug_to_drug] raises before it gets
    there, on building the drug cache. *)
Theorem ddi_dispatch_ignores_mode (_url : string → string)
    (Curl : string → option (list string)) :
  (∀ drugs join asynchronous w,
     _kegg_ddi_kw _url Curl drugs
       [("join", join); ("asynchronous", asynchronous)] w
     = (Raise TypeError, w))
  ∧ (∀ drug_ids w,
       _kegg_ddi _url Curl drug_ids false w = (Raise TypeError, w))
  ∧ (∀ drug_ids w, snd (_kegg_ddi _url Curl drug_ids true w) = w)
  ∧ ∀ drugs join asynchronous w,
      drug_to_drug _url Curl drugs join asynchronous w = (Raise TypeError, w).
Proof.
  split; [reflexivity |].
  split; [reflexivity |].
  split; [reflexivity |].
  intros. apply drug_to_drug_raises.
Qed.

(** C10: with [drugs] absent or empty, [drug_to_drug] selects no code
    path.  It raises [TypeError] on building the drug cache, whatever
    [join] and [asynchronous] are; past that, the drug universe is asked
    of a method the cache does not have, and the call of [_kegg_ddi] with
    the two flags raises [TypeError].  The flags themselves come out as
    the claim says, [join] falsy and [asynchronous] true. *)
Theorem drug_to_drug_selects_no_path (_url : string → string)
    (Curl : string → option (list string)) (join asynchronous : bool)
    (w : World) :
  Forall (λ drugs,
            drug_to_drug _url Curl drugs join asynchronous w
            = (Raise TypeError, w)
            ∧ (∀ entry_dbs, drugs_or_all drugs entry_dbs = Raise AttributeError)
            ∧ (∀ drug_ids,
                 _kegg_ddi_kw _url Curl drug_ids
                   [("join", join_flag join drugs);
                    ("asynchronous",
                     PyBool (asynchronous_flag drugs asynchronous))] w
                 = (Raise TypeError, w))
            ∧ truthy (join_flag join drugs) = false
            ∧ asynchronous_flag drugs asynchronous = true)
         [None; Some []].
Proof.
  repeat constructor; by destruct join, asynchronous.
Qed.

(** On rows, the loop of [drug_to_drug] is [ddi_loop]. *)
Lemma ddi_entries_loop_rows (entry_dbs : EntryDbs)
    (interactions : gmap string Profile) (rows : list (list string)) :
  ddi_entries_loop entry_dbs interactions (map Row rows)
  = ddi_loop entry_dbs interactions rows.
Proof.
  revert interactions. induction rows as [| row rows IH]; intros interactions;
    [reflexivity |].
  simpl. destruct (ddi_step entry_dbs interactions row); [apply IH | reflexivity].
Qed.

(** C5: on the two example rows the aggregation loop raises [NameError]
    at the first row, whatever the caches hold, because the name lookup
    reads two unbound names; no profile is produced, and [drug_to_drug]
    raises before the loop.  The label test alone gives the claimed
    flags. *)
Theorem ddi_example_yields_no_profile :
  (∀ entry_dbs interactions,
     ddi_loop entry_dbs interactions ddi_rows = Raise NameError)
  ∧ rows_of_lines (lines_of_result (curl_ddi "https://rest.kegg.jp/ddi/D001"))
    = ddi_rows
  ∧ (∀ drugs join asynchronous,
       fst (drug_to_drug kegg_url curl_ddi drugs join asynchronous empty_world)
       = Raise TypeError)
  ∧ is_contraindication (labels_of "CI,P") = true
  ∧ is_precaution (labels_of "CI,P") = true
  ∧ is_contraindication (labels_of EmptyString) = false
  ∧ is_precaution (labels_of EmptyString) = false.
Proof.
  split; [reflexivity |].
  split; [vm_compute; reflexivity |].
  split; [reflexivity |].
  repeat split; reflexivity.
Qed.

(** * Further properties of the module *)

(** ** Splitting and joining *)

Lemma append_cons (c : ascii) (a b : string) :
  (String c a ++ b)%string = String c (a ++ b)%string.
Proof. reflexivity. Qed.

Lemma append_empty_l (a : string) : (EmptyString ++ a)%string = a.
Proof. reflexivity. Qed.

Lemma append_empty_r (a : string) : (a ++ EmptyString)%string = a.
Proof. induction a as [| c a IH]; [reflexivity |]. by rewrite append_cons, IH. Qed.

Lemma split_not_nil (sep : ascii) (s : string) : Py.split sep s ≠ [].
Proof.
  destruct s as [| c s]; simpl; [discriminate |].
  destruct (Ascii.eqb c sep); [discriminate |].
  destruct (Py.split sep s); discriminate.
Qed.

Lemma join_cons (sep p : string) (q : string) (ps : list string) :
  Py.join sep (p :: q :: ps) = (p ++ sep ++ Py.join sep (q :: ps))%string.
Proof. reflexivity. Qed.

Lemma join_split (sep : ascii) (s : string) :
  Py.join (String sep EmptyString) (Py.split sep s) = s.
Proof.
  induction s as [| c s IH]; [reflexivity |].
  simpl. destruct (Ascii.eqb c sep) eqn:Hc.
  - apply Ascii.eqb_eq in Hc as ->.
    pose proof (split_not_nil sep s) as Hne.
    destruct (Py.split sep s) as [| q ps]; [done |].
    rewrite join_cons, IH. reflexivity.
  - pose proof (split_not_nil sep s) as Hne.
    destruct (Py.split sep s) as [| q ps]; [done |].
    destruct ps as [| r ps].
    + simpl in *. by rewrite IH.
    + rewrite join_cons, append_cons. rewrite join_cons in IH. by rewrite IH.
Qed.

Lemma split_pieces (sep : ascii) (s : string) :
  Forall (λ p, has_char sep p = false) (Py.split sep s).
Proof.
  induction s as [| c s IH]; simpl; [by repeat constructor |].
  destruct (Ascii.eqb c sep) eqn:Hc.
  - constructor; [reflexivity | exact IH].
  - destruct (Py.split sep s) as [| q ps]; [by repeat constructor; simpl; rewrite Hc |].
    inversion IH as [| ? ? Hq Hps]; subst.
    constructor; [simpl; by rewrite Hc, Hq | exact Hps].
Qed.

Lemma split_no_sep (sep : ascii) (s : string) :
  has_char sep s = false → Py.split sep s = [s].
Proof.
  induction s as [| c s IH]; [reflexivity |].
  simpl. destruct (Ascii.eqb c sep); [discriminate |].
  simpl. intros H. by rewrite (IH H).
Qed.

Lemma split_app_sep (sep : ascii) (p rest : string) :
  has_char sep p = false →
  Py.split sep (p ++ String sep rest) = p :: Py.split sep rest.
Proof.
  induction p as [| c p IH]; simpl.
  - intros _. rewrite ?append_empty_l. simpl. by rewrite Ascii.eqb_refl.
  - destruct (Ascii.eqb c sep) eqn:Hc; [discriminate |].
    simpl. intros H. by rewrite (IH H).
Qed.

Lemma split_join (sep : ascii) (parts : list string) :
  parts ≠ [] →
  Forall (λ p, has_char sep p = false) parts →
  Py.split sep (Py.join (String sep EmptyString) parts) = parts.
Proof.
  induction parts as [| p parts IH]; [done |].
  intros _ Hall. inversion Hall as [| ? ? Hp Hps]; subst.
  destruct parts as [| q parts].
  - simpl. by apply split_no_sep.
  - rewrite join_cons.
    change (Py.split sep
              (p ++ String sep (Py.join (String sep EmptyString) (q :: parts)))
            = p :: q :: parts).
    rewrite (split_app_sep _ _ _ Hp). f_equal. by apply IH.
Qed.

Lemma has_char_true_split (sep : ascii) (s : string) :
  has_char sep s = true →
  ∃ p q ps, Py.split sep s = p :: q :: ps.
Proof.
  induction s as [| c s IH]; simpl; [discriminate |].
  destruct (Ascii.eqb c sep) eqn:Hc.
  - intros _. pose proof (split_not_nil sep s).
    destruct (Py.split sep s) as [| q ps]; [done |]. by eexists _, _, _.
  - simpl. intros H. destruct (IH H) as (p & q & ps & ->). by eexists _, _, _.
Qed.

Lemma contains_elem_of (x : string) (l : list string) :
  Py.contains x l = true ↔ x ∈ l.
Proof.
  unfold Py.contains. rewrite existsb_exists. split.
  - intros (y & Hin & Heq). apply String.eqb_eq in Heq as ->.
    by apply list_elem_of_In.
  - intros Hin. exists x. split; [by apply list_elem_of_In | apply String.eqb_refl].
Qed.

(** ** The raw client *)

(** X1: the rows the raw client returns are the non-blank lines of the
    response, in order, split on tabs: joining each row with tabs gives
    those lines back, no row is empty and no field holds a tab. *)
Theorem rows_round_trip (lines : list string) :
  map (Py.join (String tab EmptyString)) (rows_of_lines lines)
  = List.filter nonempty lines
  ∧ Forall (λ row, row ≠ [] ∧ Forall (λ field, has_char tab field = false) row)
           (rows_of_lines lines).
Proof.
  unfold rows_of_lines. split.
  - rewrite map_map. rewrite <- (map_id (List.filter nonempty lines)) at 2.
    apply map_ext. intros line. apply join_split.
  - apply Forall_map, Forall_forall. intros line _. simpl.
    split; [apply split_not_nil | apply split_pieces].
Qed.

(** X2: no conversion fetch reaches the transport.  [_kegg_conv], and with
    it each of the six public conversion helpers, raises [TypeError] for
    every transport and every argument, on iterating the coroutine object
    the raw client returned; no request is made and the state is left as
    it was. *)
Theorem conversion_helpers_always_raise (_url : string → string)
    (Curl : string → option (list string)) (w : World) :
  (∀ source_db target_db source_split target_split,
     _kegg_conv _url Curl source_db target_db source_split target_split w
     = (Raise TypeError, w))
  ∧ (∀ organism,
       Forall (λ helper, helper organism w = (Raise TypeError, w))
              (map snd (organism_tables _url Curl)))
  ∧ Forall (λ helper, helper w = (Raise TypeError, w))
           (map snd (chebi_tables _url Curl)).
Proof.
  split; [reflexivity |].
  split; [intros organism |]; repeat constructor.
Qed.

(** ** Interaction labels *)

(** X4: for a label field made of comma-separated codes, the
    contraindication flag is set exactly when [CI] is one of the codes and
    the precaution flag exactly when [P] is one of them; a code that merely
    contains these letters does not count. *)
Theorem label_flags_follow_membership (labels : list string) :
  labels ≠ [] →
  Forall (λ code, has_char ","%char code = false) labels →
  (is_contraindication (labels_of (Py.join "," labels)) = true ↔ "CI" ∈ labels)
  ∧ (is_precaution (labels_of (Py.join "," labels)) = true ↔ "P" ∈ labels).
Proof.
  intros Hne Hall. unfold is_contraindication, is_precaution, labels_of.
  rewrite (split_join ","%char labels Hne Hall).
  split; apply contains_elem_of.
Qed.

Lemma label_flags_follow_membership_witness :
  (is_contraindication (labels_of (Py.join "," ["CIX"; "P"])) = true
   ↔ "CI" ∈ ["CIX"; "P"])
  ∧ (is_precaution (labels_of (Py.join "," ["CIX"; "P"])) = true
     ↔ "P" ∈ ["CIX"; "P"]).
Proof.
  apply (label_flags_follow_membership ["CIX"; "P"]).
  - discriminate.
  - repeat constructor.
Defined.

(** ** The mapping an entity cache builds *)

Lemma build_data_app (k : kind) (l1 l2 : list (list string))
    (data : gmap string value) :
  build_data k data (l1 ++ l2)
  = rbind (build_data k data l1) (λ data', build_data k data' l2).
Proof.
  revert data. induction l1 as [| e l1 IH]; intros data; [reflexivity |].
  simpl. destruct (proc_key k e); [| reflexivity].
  destruct (proc_value k e); [| reflexivity]. simpl. apply IH.
Qed.

Lemma build_data_keep (k : kind) (entries : list (list string))
    (data0 data : gmap string value) (key : string) :
  build_data k data0 entries = Ok data →
  Forall (λ e, proc_key k e ≠ Ok key) entries →
  data !! key = data0 !! key.
Proof.
  revert data0. induction entries as [| e entries IH]; intros data0; simpl.
  - by intros [= <-] _.
  - destruct (proc_key k e) as [key' |] eqn:Hk; [| discriminate].
    destruct (proc_value k e) as [v' |]; [| discriminate].
    simpl. intros Hb Hall. inversion Hall as [| ? ? Hne Hrest]; subst.
    rewrite (IH _ Hb Hrest). apply lookup_insert_ne. congruence.
Qed.

(** X5: in the mapping built from the rows of a list response, a key
    holds the value of the last row that produces it: later rows replace
    earlier ones. *)
Theorem cache_last_row_wins (k : kind) (pre post : list (list string))
    (entry : list string) (data : gmap string value) (key : string)
    (v : value) :
  build_data k ∅ (pre ++ entry :: post) = Ok data →
  proc_key k entry = Ok key →
  proc_value k entry = Ok v →
  Forall (λ e, proc_key k e ≠ Ok key) post →
  get data key None = Some v.
Proof.
  intros Hb Hk Hv Hpost. rewrite build_data_app in Hb.
  destruct (build_data k ∅ pre) as [data1 |]; [| discriminate].
  simpl in Hb. rewrite Hk, Hv in Hb. simpl in Hb.
  unfold get. rewrite (build_data_keep _ _ _ _ _ Hb Hpost).
  by rewrite lookup_insert_eq.
Qed.

Lemma cache_last_row_wins_witness :
  get (<["D00001" := Name "Second"]> (∅ : gmap string value)) "D00001" None
  = Some (Name "Second").
Proof.
  apply (cache_last_row_wins Drug [["dr:D00001"; "First"]] []
           ["dr:D00001"; "Second"]).
  - vm_compute. reflexivity.
  - reflexivity.
  - reflexivity.
  - constructor.
Defined.

(** X6: a key that no row produces is absent from the mapping, and [get]
    answers the default for it. *)
Theorem cache_absent_key_gives_default (k : kind)
    (entries : list (list string)) (data : gmap string value) (key : string)
    (default : option value) :
  build_data k ∅ entries = Ok data →
  Forall (λ e, proc_key k e ≠ Ok key) entries →
  get data key default = default.
Proof.
  intros Hb Hall. unfold get.
  by rewrite (build_data_keep _ _ _ _ _ Hb Hall), lookup_empty.
Qed.

Lemma cache_absent_key_gives_default_witness :
  get (<["D00001" := Name "Calcium"]> (∅ : gmap string value)) "D99999" None
  = None.
Proof.
  apply (cache_absent_key_gives_default Drug [["dr:D00001"; "Calcium"]]).
  - vm_compute. reflexivity.
  - repeat constructor. discriminate.
Defined.


(** ** Key and value rules *)

Lemma split_index1_ok (sep : ascii) (s key : string) :
  Py.index (Py.split sep s) 1 = Ok key →
  ∃ ns tail,
    s = (ns ++ String sep EmptyString ++ key ++ tail)%string
    ∧ has_char sep ns = false
    ∧ has_char sep key = false
    ∧ (tail = EmptyString ∨ ∃ t, tail = String sep t).
Proof.
  unfold Py.index.
  pose proof (join_split sep s) as Hjoin.
  pose proof (split_pieces sep s) as Hpieces.
  destruct (Py.split sep s) as [| ns [| q ps]]; simpl; try discriminate.
  intros [= ->].
  inversion_clear Hpieces as [| ? ? Hns Hrest].
  inversion_clear Hrest as [| ? ? Hkey _].
  rewrite join_cons in Hjoin.
  destruct ps as [| r ps].
  - exists ns, EmptyString. rewrite append_empty_r.
    split; [by rewrite <- Hjoin | by auto].
  - rewrite join_cons in Hjoin.
    exists ns, (String sep (Py.join (String sep EmptyString) (r :: ps))).
    split; [by rewrite <- Hjoin | by eauto 6].
Qed.

Lemma split_index1_of_parts (sep : ascii) (ns key tail : string) :
  has_char sep ns = false →
  has_char sep key = false →
  tail = EmptyString ∨ (∃ t, tail = String sep t) →
  Py.index (Py.split sep (ns ++ String sep EmptyString ++ key ++ tail)) 1
  = Ok key.
Proof.
  intros Hns Hkey Htail.
  change (ns ++ String sep EmptyString ++ key ++ tail)%string
    with (ns ++ String sep (key ++ tail))%string.
  rewrite (split_app_sep _ _ _ Hns).
  destruct Htail as [-> | (t & ->)].
  - rewrite append_empty_r. by rewrite (split_no_sep _ _ Hkey).
  - by rewrite (split_app_sep _ _ _ Hkey).
Qed.

Lemma split_index1_error (sep : ascii) (s : string) :
  Py.index (Py.split sep s) 1 = Raise IndexError ↔ has_char sep s = false.
Proof.
  split.
  - intros Herr. destruct (has_char sep s) eqn:Hc; [| reflexivity].
    destruct (has_char_true_split _ _ Hc) as (p & q & ps & Heq).
    rewrite Heq in Herr. discriminate.
  - intros Hc. by rewrite (split_no_sep _ _ Hc).
Qed.

(** X8: for a disease, drug or compound row the key is the text between
    the first and the second colon of the first field (up to its end when
    there is no second colon), and the rule raises [IndexError] exactly
    when the first field has no colon. *)
Theorem split_key_rule (k : kind) (e0 key : string) (rest : list string) :
  k ∈ [Disease; Drug; Compound] →
  (proc_key k (e0 :: rest) = Ok key ↔
     ∃ ns tail,
       e0 = (ns ++ ":" ++ key ++ tail)%string
       ∧ has_char ":"%char ns = false
       ∧ has_char ":"%char key = false
       ∧ (tail = EmptyString ∨ ∃ t, tail = String ":"%char t))
  ∧ (proc_key k (e0 :: rest) = Raise IndexError ↔ has_char ":"%char e0 = false).
Proof.
  intros Hk.
  assert (Hrule : proc_key k (e0 :: rest) = Py.index (Py.split ":"%char e0) 1).
  { repeat (apply elem_of_cons in Hk as [-> | Hk]; [reflexivity |]).
    by apply elem_of_nil in Hk. }
  rewrite Hrule. split; [| apply split_index1_error].
  split.
  - apply split_index1_ok.
  - intros (ns & tail & -> & Hns & Hkey & Htail).
    by apply split_index1_of_parts.
Qed.

Lemma split_key_rule_witness :
  (proc_key Drug ["dr:D00001"; "Calcium"] = Ok "D00001" ↔
     ∃ ns tail,
       "dr:D00001" = (ns ++ ":" ++ "D00001" ++ tail)%string
       ∧ has_char ":"%char ns = false
       ∧ has_char ":"%char "D00001" = false
       ∧ (tail = EmptyString ∨ ∃ t, tail = String ":"%char t))
  ∧ (proc_key Drug ["dr:D00001"; "Calcium"] = Raise IndexError
     ↔ has_char ":"%char "dr:D00001" = false).
Proof.
  apply (split_key_rule Drug "dr:D00001" "D00001" ["Calcium"]).
  apply list_elem_of_further, list_elem_of_here.
Defined.

Lemma take_digits_app (digits post : string) :
  all_digits digits → starts_with_digit post = false →
  Py.take_digits (digits ++ post) = digits.
Proof.
  unfold all_digits. induction digits as [| c d IH]; simpl; intros Hall Hpost.
  - destruct post as [| c post]; [reflexivity |]. simpl in *. by rewrite Hpost.
  - inversion_clear Hall as [| ? ? Hc Hd]. rewrite Hc. by rewrite (IH Hd Hpost).
Qed.

Lemma search_digits_app (pre digits post : string) :
  no_digit pre → all_digits digits → digits ≠ EmptyString →
  starts_with_digit post = false →
  Py.search_digits (pre ++ digits ++ post) = Some digits.
Proof.
  unfold no_digit. intros Hpre Hall Hne Hpost.
  induction pre as [| c pre IH]; simpl.
  - destruct digits as [| c d]; [done |].
    pose proof Hall as Hall'. unfold all_digits in Hall'. simpl in Hall'.
    inversion_clear Hall' as [| ? ? Hc Hd].
    rewrite append_cons. simpl. rewrite Hc. do 2 f_equal.
    by apply take_digits_app.
  - simpl in Hpre. inversion_clear Hpre as [| ? ? Hc Hrest].
    rewrite Hc. by apply IH.
Qed.

Lemma search_digits_none (s : string) :
  Py.search_digits s = None ↔ no_digit s.
Proof.
  unfold no_digit. induction s as [| c s IH]; simpl.
  - split; [constructor | reflexivity].
  - destruct (Py.is_digit c) eqn:Hc.
    + split; [discriminate |]. intros H. inversion_clear H as [| ? ? Hc' _].
      congruence.
    + rewrite IH. split; [by constructor |]. intros H. by inversion_clear H.
Qed.

(** X9: the pathway key keeps only the first run of digits of the raw
    identifier: whatever stands before that run, an organism prefix
    included, is discarded, so identifiers that differ only there share one
    key.  The rule raises [AttributeError] exactly when the identifier has
    no digit. *)
Theorem pathway_key_discards_prefix (pre digits post : string)
    (rest : list string) :
  no_digit pre → all_digits digits → digits ≠ EmptyString →
  starts_with_digit post = false →
  proc_key Pathway ((pre ++ digits ++ post)%string :: rest)
  = Ok ("map" ++ digits)%string.
Proof.
  intros Hpre Hall Hne Hpost. unfold proc_key. simpl.
  by rewrite (search_digits_app _ _ _ Hpre Hall Hne Hpost).
Qed.

Lemma pathway_key_discards_prefix_witness :
  proc_key Pathway [("path:mmu" ++ "04110" ++ EmptyString)%string; "Cell cycle"]
  = Ok ("map" ++ "04110")%string.
Proof.
  apply (pathway_key_discards_prefix "path:mmu" "04110" EmptyString
           ["Cell cycle"]).
  - repeat constructor.
  - repeat constructor.
  - discriminate.
  - reflexivity.
Defined.

(** X10: the pathway key rule raises [AttributeError] exactly when the
    raw identifier holds no digit. *)
Theorem pathway_key_needs_digit (raw : string) (rest : list string) :
  proc_key Pathway (raw :: rest) = Raise AttributeError ↔ no_digit raw.
Proof.
  rewrite <- search_digits_none. unfold proc_key. simpl.
  destruct (Py.search_digits raw); split; intros H; congruence.
Qed.

Lemma split_app_any (sep : ascii) (a b : string) :
  Py.split sep (a ++ String sep b) = Py.split sep a ++ Py.split sep b.
Proof.
  induction a as [| c a IH]; simpl.
  - by rewrite Ascii.eqb_refl.
  - destruct (Ascii.eqb c sep); [by rewrite IH |].
    rewrite IH. pose proof (split_not_nil sep a).
    by destruct (Py.split sep a).
Qed.

Lemma last_default {A : Type} (l : list A) (d d' : A) :
  l ≠ [] → List.last l d = List.last l d'.
Proof.
  induction l as [| x l IH]; [done |]. intros _.
  destruct l as [| y l]; [reflexivity |]. simpl in *. by apply IH.
Qed.

Lemma last_segment (sep : ascii) (e : string) :
  Py.index_last (Py.rsplit1 sep e)
  = Ok (List.last (Py.split sep e) EmptyString).
Proof.
  unfold Py.rsplit1. pose proof (split_not_nil sep e).
  destruct (Py.split sep e) as [| p [| q ps]]; [done | reflexivity |].
  unfold Py.index_last. f_equal.
  change (List.last (q :: ps) p = List.last (q :: ps) EmptyString).
  by apply last_default.
Qed.

Lemma index_last_snoc {A : Type} (l : list A) (x : A) :
  Py.index_last (l ++ [x]) = Ok x.
Proof.
  destruct l as [| y l]; [reflexivity |]. simpl. f_equal.
  induction l as [| z l IH]; [reflexivity |].
  simpl. destruct (l ++ [x]) eqn:Heq; [by destruct l | exact IH].
Qed.

Lemma lstrip_start (s : string) : starts_with_space (Py.lstrip s) = false.
Proof.
  induction s as [| c s IH]; [reflexivity |]. simpl.
  destruct (Ascii.eqb c " "%char) eqn:Hc; [exact IH | simpl; exact Hc].
Qed.

Lemma rstrip_end (s : string) : ends_with_space (Py.rstrip s) = false.
Proof.
  induction s as [| c s IH]; [reflexivity |]. simpl.
  destruct (Py.rstrip s) as [| x t].
  - destruct (Ascii.eqb c " "%char) eqn:Hc; [reflexivity | simpl; exact Hc].
  - exact IH.
Qed.

Lemma rstrip_start (s : string) :
  starts_with_space s = false → starts_with_space (Py.rstrip s) = false.
Proof.
  destruct s as [| c s]; [reflexivity |]. simpl. intros Hc.
  destruct (Py.rstrip s); [by rewrite Hc | exact Hc].
Qed.

Lemma lstrip_has_char (x : ascii) (s : string) :
  has_char x s = false → has_char x (Py.lstrip s) = false.
Proof.
  induction s as [| c s IH]; [reflexivity |]. simpl. intros H.
  apply orb_false_iff in H as [Hc Hs].
  destruct (Ascii.eqb c " "%char); [by apply IH | simpl; by rewrite Hc, Hs].
Qed.

Lemma rstrip_has_char (x : ascii) (s : string) :
  has_char x s = false → has_char x (Py.rstrip s) = false.
Proof.
  induction s as [| c s IH]; [reflexivity |]. simpl. intros H.
  apply orb_false_iff in H as [Hc Hs]. specialize (IH Hs).
  destruct (Py.rstrip s) as [| y t].
  - destruct (Ascii.eqb c " "%char); [reflexivity | simpl; by rewrite Hc].
  - simpl in *. by rewrite Hc, IH.
Qed.

(** X11: the name stored for a gene holds no semicolon and neither starts
    nor ends with a space. *)
Theorem gene_name_is_trimmed (entry : list string) (name : string) :
  proc_value Gene entry = Ok (Name name) →
  has_char ";"%char name = false
  ∧ starts_with_space name = false
  ∧ ends_with_space name = false.
Proof.
  unfold proc_value.
  destruct (Py.index_last entry) as [e |]; [| discriminate]. simpl.
  rewrite last_segment. simpl. intros [= <-]. unfold Py.strip.
  split; [| split].
  - apply rstrip_has_char, lstrip_has_char.
    pose proof (split_pieces ";"%char e) as Hall.
    pose proof (split_not_nil ";"%char e) as Hne.
    destruct (Py.split ";"%char e) as [| p ps]; [done |].
    clear Hne. revert p Hall. induction ps as [| q ps IH]; intros p Hall.
    + by inversion_clear Hall.
    + inversion_clear Hall as [| ? ? _ Hrest]. by apply (IH q).
  - apply rstrip_start, lstrip_start.
  - apply rstrip_end.
Qed.

Lemma gene_name_is_trimmed_witness :
  has_char ";"%char "N-acetyltransferase 2" = false
  ∧ starts_with_space "N-acetyltransferase 2" = false
  ∧ ends_with_space "N-acetyltransferase 2" = false.
Proof.
  apply (gene_name_is_trimmed
           ["hsa:10"; "CDS"; "NAT2, AAC2; N-acetyltransferase 2 "]).
  reflexivity.
Defined.

(** X12: the gene name is the text after the last semicolon of the last
    field of the row, with the spaces around it removed. *)
Theorem gene_name_is_last_segment (fields : list string) (head name : string) :
  has_char ";"%char name = false →
  proc_value Gene (fields ++ [(head ++ ";" ++ name)%string])
  = Ok (Name (Py.strip name)).
Proof.
  intros Hname. unfold proc_value. rewrite index_last_snoc. simpl.
  rewrite last_segment. simpl. do 2 f_equal.
  change (head ++ ";" ++ name)%string with (head ++ String ";"%char name)%string.
  rewrite split_app_any, (split_no_sep _ _ Hname).
  by rewrite last_last.
Qed.

Lemma gene_name_is_last_segment_witness :
  proc_value Gene
    (["hsa:10"; "CDS"] ++ [("NAT2, AAC2" ++ ";" ++ " N-acetyltransferase 2 ")%string])
  = Ok (Name (Py.strip " N-acetyltransferase 2 ")).
Proof.
  apply (gene_name_is_last_segment ["hsa:10"; "CDS"] "NAT2, AAC2"
           " N-acetyltransferase 2 ").
  reflexivity.
Defined.

(** ** Conversion tables, continued *)

Lemma conv_side_ok (flag : bool) (x : string) :
  is_ok (conv_side flag x) = negb flag || has_char ":"%char x.
Proof.
  unfold conv_side. destruct flag; [| reflexivity]. simpl.
  destruct (has_char ":"%char x) eqn:Hc.
  - destruct (has_char_true_split _ _ Hc) as (p & q & ps & ->). reflexivity.
  - by rewrite (split_no_sep _ _ Hc).
Qed.

Lemma conv_step_ok (source_split target_split : bool)
    (table : gmap string (gset string)) (row : list string) :
  is_ok (conv_step source_split target_split table row)
  = conv_row_ok source_split target_split row.
Proof.
  unfold conv_step, conv_row_ok.
  destruct row as [| source [| target [| x row]]]; try reflexivity.
  rewrite <- !conv_side_ok.
  destruct (conv_side source_split source); [| reflexivity].
  destruct (conv_side target_split target); reflexivity.
Qed.

Lemma conv_loop_ok (source_split target_split : bool)
    (table : gmap string (gset string)) (rows : list (list string)) :
  is_ok (conv_loop source_split target_split table rows)
  = forallb (conv_row_ok source_split target_split) rows.
Proof.
  revert table. induction rows as [| row rows IH]; intros table; [reflexivity |].
  simpl. rewrite <- (conv_step_ok _ _ table).
  destruct (conv_step source_split target_split table row); [| reflexivity].
  simpl. apply IH.
Qed.


Lemma contributes_same_rows (source_split target_split : bool)
    (rows rows' : list (list string)) (id t : string) :
  (∀ r, r ∈ rows ↔ r ∈ rows') →
  contributes source_split target_split rows id t
  → contributes source_split target_split rows' id t.
Proof.
  intros Hsame (source & target & Hin & Hrest).
  exists source, target. split; [by apply Hsame | exact Hrest].
Qed.

(** X14: the table depends only on which rows the response holds, not on
    their order nor on how often a row is repeated: two responses with the
    same rows build the same table. *)
Theorem conversion_table_ignores_order_and_repeats
    (source_split target_split : bool) (rows rows' : list (list string))
    (table : gmap string (gset string)) :
  (∀ r, r ∈ rows ↔ r ∈ rows') →
  conv_loop source_split target_split ∅ rows = Ok table →
  conv_loop source_split target_split ∅ rows' = Ok table.
Proof.
  intros Hsame Hloop.
  assert (Hok : is_ok (conv_loop source_split target_split ∅ rows') = true).
  { rewrite conv_loop_ok. apply forallb_forall.
    intros r Hin. apply list_elem_of_In, Hsame, list_elem_of_In in Hin.
    pose proof (conv_loop_ok source_split target_split ∅ rows) as Hrows.
    rewrite Hloop in Hrows. symmetry in Hrows.
    by apply (proj1 (forallb_forall _ _) Hrows). }
  destruct (conv_loop source_split target_split ∅ rows') as [table' |] eqn:Hloop';
    [| discriminate].
  f_equal. apply map_eq. intros id.
  pose proof (conv_loop_lookup _ _ _ _ id Hloop) as H1.
  pose proof (conv_loop_lookup _ _ _ _ id Hloop') as H2.
  assert (Hsame' : ∀ r, r ∈ rows' ↔ r ∈ rows) by (intros r; by rewrite Hsame).
  destruct (table !! id) as [targets |], (table' !! id) as [targets' |].
  - destruct H1 as [_ H1], H2 as [_ H2]. f_equal. apply set_eq. intros t.
    rewrite H1, H2. split; by apply contributes_same_rows.
  - destruct H1 as [Hne H1]. apply set_choose_L in Hne as [t Ht].
    apply H1, (contributes_same_rows _ _ _ _ _ _ Hsame) in Ht. by apply H2 in Ht.
  - destruct H2 as [Hne H2]. apply set_choose_L in Hne as [t Ht].
    apply H2, (contributes_same_rows _ _ _ _ _ _ Hsame') in Ht. by apply H1 in Ht.
  - reflexivity.
Qed.

Lemma conversion_table_ignores_order_and_repeats_witness :
  conv_loop false true ∅
    [["hsa:10"; "up:A4Z6T7"]; ["hsa:10"; "up:P11245"]; ["hsa:10"; "up:A4Z6T7"]]
  = Ok {["hsa:10" := {["P11245"; "A4Z6T7"]}]}.
Proof.
  apply (conversion_table_ignores_order_and_repeats false true
           [["hsa:10"; "up:P11245"]; ["hsa:10"; "up:A4Z6T7"]]).
  - intros r. rewrite !elem_of_cons, !elem_of_nil. tauto.
  - vm_compute. reflexivity.
Defined.



(** ** The relation resolver, continued *)

(** X17: the resolver never returns.  [_kegg_relations], and with it each
    public resolution function, raises [TypeError] for every pair of
    kinds, every organism and every transport, on iterating what
    [_kegg_link] returned; no request is made. *)
Theorem resolver_always_raises (_url : string → string)
    (Curl : string → option (list string)) (w : World) :
  (∀ source_db target_db organism,
     _kegg_relations _url Curl source_db target_db organism w
     = (Raise TypeError, w))
  ∧ (∀ organism,
       Forall (λ resolve, resolve organism w = (Raise TypeError, w))
              [gene_to_pathway _url Curl; pathway_to_gene _url Curl;
               gene_to_drug _url Curl; drug_to_gene _url Curl;
               gene_to_disease _url Curl; disease_to_gene _url Curl])
  ∧ Forall (λ resolve, resolve w = (Raise TypeError, w))
           [pathway_to_drug _url Curl; drug_to_pathway _url Curl;
            pathway_to_disease _url Curl; disease_to_pathway _url Curl;
            disease_to_drug _url Curl; drug_to_disease _url Curl].
Proof.
  split; [reflexivity |].
  split; [intros organism |]; repeat constructor.
Qed.

Lemma underscore_name_not_local (rest : string) :
  Py.contains (String "_"%char rest) get_data_locals = false.
Proof. reflexivity. Qed.

(** X19: [process] never yields a record and never touches the world:
    with both arguments it raises [KeyError] when the cache of the kind is
    not yet in [data], on the lookup of the class, and [AttributeError]
    otherwise, on [handle]. *)
Theorem process_always_raises (l_organism : list string) (data : Data)
    (entry type_ : string) (w : World) :
  process l_organism data entry type_ w
  = (Raise (match dbs data !! type_ with
            | Some _ => AttributeError
            | None => KeyError
            end), w).
Proof.
  unfold process, db, get_data, bind.
  destruct (dbs data !! type_) as [cache |]; [reflexivity |].
  unfold locals_call.
  change ("_" ++ EmptyString ++ Py.capitalize type_)%string
    with (String "_"%char (Py.capitalize type_)).
  by rewrite underscore_name_not_local.
Qed.

(** ** The aggregator, continued *)

(** X20: the type of an interaction partner is read from the first
    letter of its entry without regard to case: [d] or [D] gives a drug,
    [c] or [C] a compound, any other letter no type. *)
Theorem entry_type_by_first_letter (c : ascii) :
  entry_types (Py.lower_char c)
  = if Ascii.eqb c "d"%char || Ascii.eqb c "D"%char then Some "drug"
    else if Ascii.eqb c "c"%char || Ascii.eqb c "C"%char then Some "compound"
    else None.
Proof.
  destruct c as [[] [] [] [] [] [] [] []]; reflexivity.
Qed.

Lemma partner_raises (entry_dbs : EntryDbs) (entry : list string) (i : nat) :
  partner entry_dbs entry i
  = Raise (match nth_error entry i with
           | Some (String _ _) => NameError
           | _ => IndexError
           end).
Proof.
  unfold partner, Py.index. destruct (nth_error entry i) as [e |]; [| reflexivity].
  destruct e as [| c e]; [reflexivity |].
  pose proof (split_not_nil ":"%char (String c e)) as Hne.
  change (rbind (Py.index_last (Py.split ":"%char (String c e)))
            (λ id, rbind (partner_name entry_dbs)
                     (λ name, Ok (mkPartner (entry_types (Py.lower_char c))
                                    id name)))
          = Raise NameError).
  destruct (Py.split ":"%char (String c e)) as [| piece pieces];
    [done | reflexivity].
Qed.

(** X21: the aggregation loop stops at its first row, whatever the row
    and the caches hold: with [NameError] when the first field of the row
    is a non-empty string, with [IndexError] when the row or that field is
    empty.  No row ever adds a profile. *)
Theorem aggregation_stops_at_first_row (entry_dbs : EntryDbs)
    (interactions : gmap string Profile) (entry : list string)
    (rest : list (list string)) :
  ddi_loop entry_dbs interactions (entry :: rest)
  = Raise (match entry with
           | String _ _ :: _ => NameError
           | _ => IndexError
           end).
Proof.
  simpl. unfold ddi_step. rewrite partner_raises. simpl.
  by destruct entry as [| [| c e] fields].
Qed.

(** ** What [load] does *)

(** X22: [load] never fills a cache.  For every kind and whatever
    arguments it is given it raises [TypeError] without a request: either
    the argument list handed to the raw client is empty, or the coroutine
    object the raw client returned is iterated. *)
Theorem load_always_raises (_url : string → string)
    (Curl : string → option (list string)) (k : kind) (args : list string)
    (w : World) :
  load _url Curl k args w = (Raise TypeError, w)
  ∧ __init__ _url Curl k args w = (Raise TypeError, w).
Proof.
  split; [apply load_raises |].
  unfold __init__. destruct k; try apply load_raises.
  destruct args as [| organism [| x args]]; try reflexivity. apply load_raises.
Qed.

(** ** Stripped identifiers *)

Lemma conv_side_stripped (x y : string) :
  conv_side true x = Ok y → has_char ":"%char y = false.
Proof.
  unfold conv_side. intros H.
  by destruct (split_index1_ok _ _ _ H) as (ns & tail & _ & _ & Hy & _).
Qed.

(** X23: in a table built with prefix stripping, the stripped side holds
    no colon: every key when the source side is stripped, every stored
    target when the target side is. *)
Theorem stripped_identifiers_have_no_colon (source_split target_split : bool)
    (rows : list (list string)) (table : gmap string (gset string))
    (id t : string) :
  conv_loop source_split target_split ∅ rows = Ok table →
  stored table id t →
  (source_split = true → has_char ":"%char id = false)
  ∧ (target_split = true → has_char ":"%char t = false).
Proof.
  intros Hloop Hst.
  apply (conv_loop_stored _ _ _ _ _ _ _ Hloop) in Hst
    as [(S0 & Hl & _) | (source & target & _ & Hs & Ht)];
    [by rewrite lookup_empty in Hl |].
  split; intros ->; by eapply conv_side_stripped.
Qed.

Lemma stripped_identifiers_have_no_colon_witness :
  (true = true → has_char ":"%char "D00001" = false)
  ∧ (true = true → has_char ":"%char "3000" = false).
Proof.
  apply (stripped_identifiers_have_no_colon true true
           [["dr:D00001"; "chebi:3000"]]
           {["D00001" := {["3000"]}]} "D00001" "3000").
  - vm_compute. reflexivity.
  - exists {["3000"]}. split; [reflexivity | by apply elem_of_singleton].
Defined.
